(** * The search query layer of indigo ([search/query.go])

    A shallow embedding of the Go package [search]: the pagination check
    [checkParams], the four query builders [DoSearchPosts],
    [DoSearchProfiles], [DoSearchProfilesTypeahead] and [DoSearchGeneric],
    and the dispatcher [doSearch] they share.

    Go values of type [interface{}] are a tree [value] whose maps are
    stdpp's [gmap]; a call of the package is a [proc]: the list of effects
    it has on the world (log lines, the request sent to the engine, closing
    the body) and the way it completes, by returning or by ending the
    process. *)

From stdpp Require Import gmap strings list.
From Stdlib Require Import ZArith SpecFloat Ascii DecimalZ.

#[local] Set Warnings "-register-all".
#[local] Open Scope Z_scope.

(* ===================================================================== *)
(** ** Go scalars *)
(* ===================================================================== *)

(** Go's [int] on a 64-bit platform: arithmetic wraps around. *)
Definition int_min : Z := - 2 ^ 63.
Definition int_max : Z := 2 ^ 63 - 1.
Definition int_wrap (z : Z) : Z := (z + 2 ^ 63) `mod` 2 ^ 64 - 2 ^ 63.
Definition int_add (a b : Z) : Z := int_wrap (a + b).

(** [float64] is IEEE binary64, carried by the Standard Library's
    [spec_float] (precision 53, exponents up to 1024). *)
Definition float64 : Type := spec_float.
Definition prec64 : Z := 53.
Definition emax64 : Z := 1024.
Definition float64_zero : float64 := S754_zero false.
(** The Go constant [1.0]. *)
Definition float64_one : float64 := S754_finite false 4503599627370496 (-52).

Definition float64_finite (f : float64) : bool :=
  match f with
  | S754_nan | S754_infinity _ => false
  | S754_zero _ | S754_finite _ _ _ => true
  end.

(* ===================================================================== *)
(** ** Values of type [interface{}] *)
(* ===================================================================== *)

(** The dynamic values the package stores in an [interface{}]:
    [map[string]interface{}], [[]interface{}], [[]string] and scalars.
    [VChan] stands for the kinds encoding/json has no encoding for
    (channels, functions, complex numbers). *)
Inductive value : Type :=
| VString (s : string)
| VInt (n : Z)
| VBool (b : bool)
| VFloat (f : float64)
| VStrings (l : list string)
| VSlice (l : list value)
| VMap (m : gmap string value)
| VChan.

(** Follows a path of keys down nested maps. *)
Fixpoint value_at (path : list string) (v : value) : option value :=
  match path with
  | [] => Some v
  | k :: rest =>
      match v with
      | VMap m => match m !! k with
                  | Some v' => value_at rest v'
                  | None => None
                  end
      | _ => None
      end
  end.

(* ===================================================================== *)
(** ** Errors *)
(* ===================================================================== *)

Inductive error : Type :=
| ErrorString (msg : string)
    (** [fmt.Errorf] with a format that has no verbs *)
| WrapError (msg : string) (cause : error)
    (** [fmt.Errorf("msg%w", cause)] *)
| UnsupportedError (msg : string)
    (** encoding/json, when encoding: its [UnsupportedTypeError] and
        [UnsupportedValueError] *)
| SyntaxError (msg : string) (offset : Z)
| UnexpectedEOF
| EOF
| UnmarshalTypeError (jsonkind : string) (gotype : string)
    (** encoding/json, when decoding *)
| TransportError (msg : string).
    (** whatever the engine client's transport reports *)

(* ===================================================================== *)
(** ** JSON documents, as encoding/json reads them *)
(* ===================================================================== *)

(** The tree of a syntactically valid JSON text.  A number keeps its
    literal ([Decimal.decimal]: sign and integer digits, fraction digits,
    optional exponent) because the decoder converts the literal's text, not
    its value: [1.0] and [1e0] are not accepted for a Go [int].  The
    members of an object are kept in the order of the text, duplicates
    included. *)
Inductive jvalue : Type :=
| JNull
| JBool (b : bool)
| JNumber (lit : Decimal.decimal)
| JString (s : string)
| JArray (elems : list jvalue)
| JObject (members : list (string * jvalue)).

(** The name encoding/json gives a JSON value in an [UnmarshalTypeError]. *)
Definition jkind (v : jvalue) : string :=
  match v with
  | JNull => "null"
  | JBool _ => "bool"
  | JNumber _ => "number"
  | JString _ => "string"
  | JArray _ => "array"
  | JObject _ => "object"
  end.

(** What the bytes of a body are to the decoder's scanner: either they do
    not begin with a complete JSON value, and the scanner reports [err]
    ([SyntaxError], [UnexpectedEOF], or [EOF] for an empty body), or they
    do, and it delivers that value. *)
Inductive body : Type :=
| NotJSON (err : error)
| JSONText (v : jvalue).

(** The bytes [json.Encoder] writes for a value, named by that value. *)
Inductive buffer : Type :=
| Encoded (v : value).

(* ===================================================================== *)
(** ** [encoding/json]: encoding a query *)
(* ===================================================================== *)

(** [Encode] fails only on a value that has no JSON encoding: an
    unsupported kind, or a float that is not finite. *)
Fixpoint encodable (v : value) : bool :=
  match v with
  | VString _ | VInt _ | VBool _ | VStrings _ => true
  | VFloat f => float64_finite f
  | VSlice l => forallb encodable l
  | VMap m => map_fold (fun _ x acc => encodable x && acc) true m
  | VChan => false
  end.

(** [json.NewEncoder(&buf).Encode(v)]: the error, or the buffer filled.
    Which leaf is reported, and whether as an unsupported type or value,
    is not modelled. *)
Definition json_Encode (v : value) : error + buffer :=
  if encodable v then inr (Encoded v)
  else inl (UnsupportedError "json: unsupported value").

(* ===================================================================== *)
(** ** [encoding/json]: decoding into Go types *)
(* ===================================================================== *)

(** *** Numbers *)

(** [strconv.ParseInt(lit, 10, 64)]: only a literal with neither fraction
    nor exponent, whose value fits, is an [int]. *)
Definition int_of_literal (lit : Decimal.decimal) : option Z :=
  match lit with
  | Decimal.Decimal i Decimal.Nil =>
      let z := Z.of_int i in
      if (int_min <=? z) && (z <=? int_max) then Some z else None
  | _ => None
  end.

Definition literal_negative (i : Decimal.signed_int) : bool :=
  match i with Decimal.Pos _ => false | Decimal.Neg _ => true end.

Definition literal_digits (i : Decimal.signed_int) : Decimal.uint :=
  match i with Decimal.Pos d | Decimal.Neg d => d end.

(** The correctly rounded binary64 of [m * 10 ^ x], with the sign [s]. *)
Definition float64_of_scaled (s : bool) (m : Z) (x : Z) : float64 :=
  match m with
  | Zpos p =>
      if 0 <=? x
      then SFdiv prec64 emax64
             (S754_finite s (p * Z.to_pos (10 ^ x)) 0) (S754_finite false 1 0)
      else SFdiv prec64 emax64
             (S754_finite s p 0) (S754_finite false (Z.to_pos (10 ^ (- x))) 0)
  | _ => S754_zero s
  end.

(** [strconv.ParseFloat(lit, 64)]: the nearest binary64; a literal beyond
    the range is an error, one that underflows is zero. *)
Definition float64_of_literal (lit : Decimal.decimal) : option float64 :=
  let '(i, f, e) :=
    match lit with
    | Decimal.Decimal i f => (i, f, 0)
    | Decimal.DecimalExp i f e => (i, f, Z.of_int e)
    end in
  let m := Z.of_uint (Decimal.app (literal_digits i) f) in
  let r := float64_of_scaled (literal_negative i) m
             (e - Z.of_nat (Decimal.nb_digits f)) in
  if float64_finite r then Some r else None.

(** *** Field names *)

Definition ascii_upper (c : ascii) : ascii :=
  let n := N_of_ascii c in
  if ((97 <=? n) && (n <=? 122))%N then ascii_of_N (n - 32) else c.

(** The decoder's case folding of a key.  Besides the ASCII letters, two
    characters fold onto an ASCII letter: the Kelvin sign U+212A onto [K]
    and the long s U+017F onto [S] (here in their UTF-8 bytes). *)
Fixpoint foldName (s : string) : string :=
  match s with
  | EmptyString => EmptyString
  | String "226"%char (String "132"%char (String "170"%char r)) =>
      String "K"%char (foldName r)
  | String "197"%char (String "191"%char r) =>
      String "S"%char (foldName r)
  | String c r => String (ascii_upper c) (foldName r)
  end.

(** The field a key selects: the one of that exact name, else the first
    whose name is equal under case folding; none if there is no such
    field, and the member is then skipped. *)
Definition find_field {F : Type} (fields : list (string * F)) (key : string)
  : option F :=
  match List.find (fun nf => String.eqb (fst nf) key) fields with
  | Some nf => Some (snd nf)
  | None =>
      match List.find
              (fun nf => String.eqb (foldName (fst nf)) (foldName key)) fields with
      | Some nf => Some (snd nf)
      | None => None
      end
  end.

(** *** Scalars and composites

    Every decoder takes the JSON value and the current Go value and gives
    the updated Go value.  [null] leaves a scalar or a struct as it is; a
    JSON value of another kind than the Go type takes is an
    [UnmarshalTypeError].  The decoder goes on after such an error and
    reports the first one when it is done; as the caller drops the
    partly filled value, stopping at the first one is the same.  Of the
    error, the kind of the JSON value and the Go type are kept; for a
    number, encoding/json adds the text of the literal to the kind, which
    is left out here. *)

Definition decode_int (v : jvalue) (cur : Z) : error + Z :=
  match v with
  | JNull => inr cur
  | JNumber lit =>
      match int_of_literal lit with
      | Some n => inr n
      | None => inl (UnmarshalTypeError "number" "int")
      end
  | _ => inl (UnmarshalTypeError (jkind v) "int")
  end.

Definition decode_float64 (v : jvalue) (cur : float64) : error + float64 :=
  match v with
  | JNull => inr cur
  | JNumber lit =>
      match float64_of_literal lit with
      | Some f => inr f
      | None => inl (UnmarshalTypeError "number" "float64")
      end
  | _ => inl (UnmarshalTypeError (jkind v) "float64")
  end.

Definition decode_bool (v : jvalue) (cur : bool) : error + bool :=
  match v with
  | JNull => inr cur
  | JBool b => inr b
  | _ => inl (UnmarshalTypeError (jkind v) "bool")
  end.

Definition decode_string (v : jvalue) (cur : string) : error + string :=
  match v with
  | JNull => inr cur
  | JString s => inr s
  | _ => inl (UnmarshalTypeError (jkind v) "string")
  end.

(** A struct: the members in the order of the text, each stored into the
    field its key selects. *)
Fixpoint decode_members {S F : Type}
    (fields : list (string * F)) (store : F -> jvalue -> S -> error + S)
    (members : list (string * jvalue)) (cur : S) : error + S :=
  match members with
  | [] => inr cur
  | (key, v) :: rest =>
      match find_field fields key with
      | None => decode_members fields store rest cur
      | Some f =>
          match store f v cur with
          | inl err => inl err
          | inr cur' => decode_members fields store rest cur'
          end
      end
  end.

Definition decode_struct {S F : Type} (gotype : string)
    (fields : list (string * F)) (store : F -> jvalue -> S -> error + S)
    (v : jvalue) (cur : S) : error + S :=
  match v with
  | JNull => inr cur
  | JObject members => decode_members fields store members cur
  | _ => inl (UnmarshalTypeError (jkind v) gotype)
  end.

(** A slice that is still nil, as the slice of hits is when its key
    comes once in the body: each element of the array is decoded into a
    zero element and appended; [null] makes the slice nil.  When the same
    array key comes again in one body, encoding/json decodes the elements
    into those the slice already has; that case is not followed here,
    where every array is decoded as the first. *)
Fixpoint decode_elems {A : Type} (elem : jvalue -> A -> error + A) (zero : A)
    (elems : list jvalue) : error + list A :=
  match elems with
  | [] => inr []
  | v :: rest =>
      match elem v zero with
      | inl err => inl err
      | inr a =>
          match decode_elems elem zero rest with
          | inl err => inl err
          | inr l => inr (a :: l)
          end
      end
  end.

Definition decode_slice {A : Type} (gotype : string)
    (elem : jvalue -> A -> error + A) (zero : A)
    (v : jvalue) (cur : list A) : error + list A :=
  match v with
  | JNull => inr []
  | JArray elems => decode_elems elem zero elems
  | _ => inl (UnmarshalTypeError (jkind v) gotype)
  end.

(* ===================================================================== *)
(** ** Package [search]: the response types *)
(* ===================================================================== *)

(** [json.RawMessage]: nil, or the JSON value kept as it came. *)
Definition RawMessage : Type := option jvalue.

Record EsSearchHit : Type := {
  Index : string;        (* json:"_index" *)
  ID : string;           (* json:"_id" *)
  Score : float64;       (* json:"_score" *)
  Source : RawMessage    (* json:"_source" *)
}.

(** The anonymous struct of [EsSearchHits.Total]. *)
Record EsSearchTotal : Type := {
  Value : Z;
  Relation : string
}.

Record EsSearchHits : Type := {
  Total : EsSearchTotal;        (* json:"total", not used *)
  MaxScore : float64;           (* json:"max_score" *)
  Hits_Hits : list EsSearchHit  (* [Hits], json:"hits" *)
}.

Record EsSearchResponse : Type := {
  Took : Z;            (* json:"took" *)
  TimedOut : bool;     (* json:"timed_out" *)
  Hits : EsSearchHits  (* json:"hits" *)
}.

(** The zero values, what [var out EsSearchResponse] holds. *)
Definition zero_EsSearchHit : EsSearchHit :=
  {| Index := ""; ID := ""; Score := float64_zero; Source := None |}.
Definition zero_EsSearchTotal : EsSearchTotal :=
  {| Value := 0; Relation := "" |}.
Definition zero_EsSearchHits : EsSearchHits :=
  {| Total := zero_EsSearchTotal; MaxScore := float64_zero; Hits_Hits := [] |}.
Definition zero_EsSearchResponse : EsSearchResponse :=
  {| Took := 0; TimedOut := false; Hits := zero_EsSearchHits |}.

(** *** How encoding/json fills them *)

Definition fmap_result {A B : Type} (f : A -> B) (r : error + A) : error + B :=
  match r with
  | inl err => inl err
  | inr a => inr (f a)
  end.

Variant hit_field := F_index | F_id | F_score | F_source.
Variant total_field := F_Value | F_Relation.
Variant hits_field := F_total | F_max_score | F_hits_hits.
Variant response_field := F_took | F_timed_out | F_hits.

(** The names come from the struct tags; the two fields of [Total] have
    no tag and go by their Go names. *)
Definition hit_fields : list (string * hit_field) :=
  [("_index", F_index); ("_id", F_id); ("_score", F_score); ("_source", F_source)].
Definition total_fields : list (string * total_field) :=
  [("Value", F_Value); ("Relation", F_Relation)].
Definition hits_fields : list (string * hits_field) :=
  [("total", F_total); ("max_score", F_max_score); ("hits", F_hits_hits)].
Definition response_fields : list (string * response_field) :=
  [("took", F_took); ("timed_out", F_timed_out); ("hits", F_hits)].

(** [RawMessage] is its own unmarshaler: it takes any value, [null] too. *)
Definition decode_RawMessage (v : jvalue) (cur : RawMessage) : error + RawMessage :=
  inr (Some v).

Definition store_hit (f : hit_field) (v : jvalue) (h : EsSearchHit)
  : error + EsSearchHit :=
  match f with
  | F_index =>
      fmap_result (fun x => {| Index := x; ID := ID h; Score := Score h; Source := Source h |})
        (decode_string v (Index h))
  | F_id =>
      fmap_result (fun x => {| Index := Index h; ID := x; Score := Score h; Source := Source h |})
        (decode_string v (ID h))
  | F_score =>
      fmap_result (fun x => {| Index := Index h; ID := ID h; Score := x; Source := Source h |})
        (decode_float64 v (Score h))
  | F_source =>
      fmap_result (fun x => {| Index := Index h; ID := ID h; Score := Score h; Source := x |})
        (decode_RawMessage v (Source h))
  end.

Definition decode_EsSearchHit : jvalue -> EsSearchHit -> error + EsSearchHit :=
  decode_struct "search.EsSearchHit" hit_fields store_hit.

Definition store_total (f : total_field) (v : jvalue) (t : EsSearchTotal)
  : error + EsSearchTotal :=
  match f with
  | F_Value =>
      fmap_result (fun x => {| Value := x; Relation := Relation t |})
        (decode_int v (Value t))
  | F_Relation =>
      fmap_result (fun x => {| Value := Value t; Relation := x |})
        (decode_string v (Relation t))
  end.

Definition decode_EsSearchTotal : jvalue -> EsSearchTotal -> error + EsSearchTotal :=
  decode_struct "struct { Value int; Relation string }" total_fields store_total.

Definition store_hits (f : hits_field) (v : jvalue) (hs : EsSearchHits)
  : error + EsSearchHits :=
  match f with
  | F_total =>
      fmap_result (fun x => {| Total := x; MaxScore := MaxScore hs; Hits_Hits := Hits_Hits hs |})
        (decode_EsSearchTotal v (Total hs))
  | F_max_score =>
      fmap_result (fun x => {| Total := Total hs; MaxScore := x; Hits_Hits := Hits_Hits hs |})
        (decode_float64 v (MaxScore hs))
  | F_hits_hits =>
      fmap_result (fun x => {| Total := Total hs; MaxScore := MaxScore hs; Hits_Hits := x |})
        (decode_slice "[]search.EsSearchHit" decode_EsSearchHit zero_EsSearchHit
           v (Hits_Hits hs))
  end.

Definition decode_EsSearchHits : jvalue -> EsSearchHits -> error + EsSearchHits :=
  decode_struct "search.EsSearchHits" hits_fields store_hits.

Definition store_response (f : response_field) (v : jvalue) (r : EsSearchResponse)
  : error + EsSearchResponse :=
  match f with
  | F_took =>
      fmap_result (fun x => {| Took := x; TimedOut := TimedOut r; Hits := Hits r |})
        (decode_int v (Took r))
  | F_timed_out =>
      fmap_result (fun x => {| Took := Took r; TimedOut := x; Hits := Hits r |})
        (decode_bool v (TimedOut r))
  | F_hits =>
      fmap_result (fun x => {| Took := Took r; TimedOut := TimedOut r; Hits := x |})
        (decode_EsSearchHits v (Hits r))
  end.

Definition decode_EsSearchResponse
  : jvalue -> EsSearchResponse -> error + EsSearchResponse :=
  decode_struct "search.EsSearchResponse" response_fields store_response.

(** [json.NewDecoder(b).Decode(&out)]: the scanner first reads one whole
    value off the body, then that value is stored into [out]. *)
Definition json_Decode (b : body) (out : EsSearchResponse)
  : error + EsSearchResponse :=
  match b with
  | NotJSON err => inl err
  | JSONText v => decode_EsSearchResponse v out
  end.

(* ===================================================================== *)
(** ** The engine client ([es], opensearch-go) *)
(* ===================================================================== *)

(** [context.Context], opaque to this package: it is only handed on. *)
Variant Context : Type := ContextOf (id : nat).

Module es.

(** The fields of [opensearchapi.SearchRequest] this package sets. *)
Record SearchRequest : Type := {
  Index : list string;
  Body : option buffer;
  TrackTotalHits : option value;   (* an [interface{}], nil by default *)
  ctx : option Context
}.

Record Response : Type := {
  StatusCode : Z;
  RespBody : body
}.

(** The client is the transport behind it: what it answers to a request,
    a response or the error of a call that could not complete. *)
Record Client : Type := {
  Perform : SearchRequest -> error + Response
}.

Definition empty_request : SearchRequest :=
  {| Index := []; Body := None; TrackTotalHits := None; ctx := None |}.

(** The functional options of [escli.Search]. *)
Definition WithContext (v : Context) (r : SearchRequest) : SearchRequest :=
  {| Index := Index r; Body := Body r; TrackTotalHits := TrackTotalHits r;
     ctx := Some v |}.
Definition WithIndex (v : list string) (r : SearchRequest) : SearchRequest :=
  {| Index := v; Body := Body r; TrackTotalHits := TrackTotalHits r;
     ctx := ctx r |}.
Definition WithBody (v : buffer) (r : SearchRequest) : SearchRequest :=
  {| Index := Index r; Body := Some v; TrackTotalHits := TrackTotalHits r;
     ctx := ctx r |}.
Definition WithTrackTotalHits (v : value) (r : SearchRequest) : SearchRequest :=
  {| Index := Index r; Body := Body r; TrackTotalHits := Some v;
     ctx := ctx r |}.

(** [escli.Search(o...)] starts from the empty request and applies the
    options in order. *)
Definition build (o : list (SearchRequest -> SearchRequest)) : SearchRequest :=
  fold_left (fun r f => f r) o empty_request.

End es.

(* ===================================================================== *)
(** ** Calls and their effects *)
(* ===================================================================== *)

Inductive event : Type :=
| LogWarn (msg : string) (attrs : list (string * value))
    (** a line of [slog.Warn] *)
| LogFatal (format : string) (arg : error)
    (** the line [log.Fatalf] writes before it ends the process *)
| EngineSearch (req : es.SearchRequest)
    (** a request handed to the engine's transport *)
| BodyClose.
    (** [res.Body.Close()] *)

(** A call either returns to its caller or ends the process. *)
Inductive completion (A : Type) : Type :=
| Returns (a : A)
| Exits (status : Z).
Arguments Returns {A} a.
Arguments Exits {A} status.

(** A call: the effects it had, in order, and how it completed. *)
Definition proc (A : Type) : Type := list event * completion A.

Definition ret {A : Type} (a : A) : proc A := ([], Returns a).

Definition bind {A B : Type} (k : A -> proc B) (m : proc A) : proc B :=
  match m with
  | (t, Returns a) => let '(t', c) := k a in (t ++ t', c)
  | (t, Exits status) => (t, Exits status)
  end.

(** With these, stdpp's [x ← m; k] and [m ;; k] sequence calls. *)
#[global] Instance proc_ret : MRet proc := @ret.
#[global] Instance proc_bind : MBind proc := @bind.

Definition emit (e : event) : proc unit := ([e], Returns tt).

(** [defer f()]: [f] runs when the function returns, after its results
    are set. *)
Definition defer {A : Type} (f : proc unit) (m : proc A) : proc A :=
  a ← m; f ;; ret a.

Definition slog_Warn (msg : string) (attrs : list (string * value)) : proc unit :=
  emit (LogWarn msg attrs).

(** Modelled from the spec: the package-level logger [log] of package
    [search] is declared in a file that is not among the sources
    ([query.go] imports only [log/slog]).  Its [Fatalf], as the spec
    describes this path (a process-level abort, process termination),
    writes the line and ends the process with status 1; nothing after it
    runs, not even deferred calls. *)
Definition log_Fatalf {A : Type} (format : string) (arg : error) : proc A :=
  ([LogFatal format arg], Exits 1).

(** [escli.Search(o...)]: the request is built and performed. *)
Definition Search (escli : es.Client)
    (o : list (es.SearchRequest -> es.SearchRequest))
  : proc (error + es.Response) :=
  let req := es.build o in
  emit (EngineSearch req) ;; ret (es.Perform escli req).

Definition Body_Close (res : es.Response) : proc unit := emit BodyClose.

(** [fmt.Errorf("disallowed size/offset parameters")] and
    [fmt.Errorf("decoding search response: %w", err)]. *)
Definition fmt_Errorf (msg : string) : error := ErrorString msg.
Definition fmt_Errorf_w (msg : string) (err : error) : error := WrapError msg err.

(* ===================================================================== *)
(** ** Package [search]: the operations *)
(* ===================================================================== *)

(** What the operations return: a pointer to an [EsSearchResponse] or
    nil, and an error or nil. *)
Definition result : Type := option EsSearchResponse * option error.

Definition checkParams (offset size : Z) : option error :=
  if (int_add offset size >? 5000) || (size >? 1000) || (offset >? 1000)
     || (offset <? 0) || (size <? 0)
  then Some (fmt_Errorf "disallowed size/offset parameters")
  else None.

Definition doSearch (ctx : Context) (escli : es.Client) (index : string)
    (query : value) : proc result :=
  match json_Encode query with
  | inl err => log_Fatalf "Error encoding query: %s" err
  | inr buf =>
      slog_Warn "sending query" [("index", VString index); ("query", query)] ;;
      (* Perform the search request. *)
      r ← Search escli
            [es.WithContext ctx;
             es.WithIndex [index];
             es.WithBody buf;
             es.WithTrackTotalHits (VBool false)];
      match r with
      | inl err => log_Fatalf "Error getting response: %s" err
      | inr res =>
          defer (Body_Close res)
            (match json_Decode (es.RespBody res) zero_EsSearchResponse with
             | inl err =>
                 ret (None, Some (fmt_Errorf_w "decoding search response: " err))
             | inr out => ret (Some out, None)
             end)
      end
  end.

Definition DoSearchPosts (ctx : Context) (escli : es.Client)
    (index q : string) (offset size : Z) : proc result :=
  match checkParams offset size with
  | Some err => ret (None, Some err)
  | None =>
      let query : value := VMap {[
        "sort" := VMap {[
          "created_at" := VMap {[ "order" := VString "desc" ]} ]};
        "query" := VMap {[
          "match" := VMap {[
            "everything" := VMap {[ "query" := VString q ]} ]} ]};
        "size" := VInt size;
        "from" := VInt offset ]} in
      doSearch ctx escli index query
  end.

Definition DoSearchProfiles (ctx : Context) (escli : es.Client)
    (index q : string) (offset size : Z) : proc result :=
  match checkParams offset size with
  | Some err => ret (None, Some err)
  | None =>
      let basic : value := VMap {[
        "match" := VMap {[
          "everything" := VMap {[ "query" := VString q ]} ]} ]} in
      let query : value := VMap {[
        "query" := VMap {[
          "bool" := VMap {[
            "must" := basic;
            "should" := VSlice [
              VMap {[ "term" := VMap {[ "has_avatar" := VBool true ]} ]};
              VMap {[ "term" := VMap {[ "has_banner" := VBool true ]} ]} ];
            "boost" := VFloat float64_one ]} ]};
        "size" := VInt size;
        "from" := VInt offset ]} in
      doSearch ctx escli index query
  end.

Definition DoSearchProfilesTypeahead (ctx : Context) (escli : es.Client)
    (index q : string) : proc result :=
  let query : value := VMap {[
    "query" := VMap {[
      "multi_match" := VMap {[
        "query" := VString q;
        "type" := VString "bool_prefix";
        "fields" := VStrings [
          "typeahead";
          "typeahead._2gram";
          "typeahead._3gram" ] ]} ]};
    "size" := VInt 30 ]} in
  doSearch ctx escli index query.

(** helper to do a full-featured Lucene query parser (query_string)
    search, with all possible facets. Not safe to expose publicly. *)
Definition DoSearchGeneric (ctx : Context) (escli : es.Client)
    (index q : string) : proc result :=
  let query : value := VMap {[
    "query" := VMap {[
      "query_string" := VMap {[
        "query" := VString q;
        "default_operator" := VString "and";
        "analyze_wildcard" := VBool true;
        "allow_leading_wildcard" := VBool false;
        "lenient" := VBool true;
        "default_field" := VString "everything" ]} ]} ]} in
  doSearch ctx escli index query.

(* ===================================================================== *)
(** ** Vocabulary of the statements *)
(* ===================================================================== *)

(** The pagination window the specification allows. *)
Definition window_allowed (offset size : Z) : Prop :=
  offset + size <= 5000 /\ size <= 1000 /\ offset <= 1000
  /\ offset >= 0 /\ size >= 0.

Definition disallowed : error :=
  ErrorString "disallowed size/offset parameters".

(** A call of one of the four public operations. *)
Inductive operation : Type :=
| SearchPosts (q : string) (offset size : Z)
| SearchProfiles (q : string) (offset size : Z)
| TypeaheadProfiles (q : string)
| SearchGeneric (q : string).

Definition invoke (ctx : Context) (escli : es.Client) (index : string)
    (op : operation) : proc result :=
  match op with
  | SearchPosts q offset size => DoSearchPosts ctx escli index q offset size
  | SearchProfiles q offset size => DoSearchProfiles ctx escli index q offset size
  | TypeaheadProfiles q => DoSearchProfilesTypeahead ctx escli index q
  | SearchGeneric q => DoSearchGeneric ctx escli index q
  end.

(** The requests a call handed to the engine, in order. *)
Definition dispatched (t : list event) : list es.SearchRequest :=
  omap (fun e => match e with EngineSearch r => Some r | _ => None end) t.

(** The request that carries [query] to [index]. *)
Definition request_of (ctx : Context) (index : string) (query : value)
  : es.SearchRequest :=
  {| es.Index := [index];
     es.Body := Some (Encoded query);
     es.TrackTotalHits := Some (VBool false);
     es.ctx := Some ctx |}.

(** An effect that is no engine request, or one with the tracking of the
    total number of hits switched off. *)
Definition untracked (e : event) : Prop :=
  match e with
  | EngineSearch r => es.TrackTotalHits r = Some (VBool false)
  | _ => True
  end.

(** Two engines to run the operations against: one that cannot be
    reached, one that answers every request with the same body. *)
Definition engine_down : es.Client :=
  {| es.Perform := fun _ => inl (TransportError "connection refused") |}.

Definition engine_answering (b : body) : es.Client :=
  {| es.Perform := fun _ => inr {| es.StatusCode := 200; es.RespBody := b |} |}.

(** No key of [members] selects a field of [fields]. *)
Definition no_field {F : Type} (fields : list (string * F))
    (members : list (string * jvalue)) : Prop :=
  Forall (fun kv => find_field fields (fst kv) = None) members.

(** No key of [members] selects the field [f]. *)
Definition field_absent (f : response_field) (members : list (string * jvalue))
  : Prop :=
  Forall (fun kv => find_field response_fields (fst kv) <> Some f) members.

(** How many times a call closed a response body. *)
Definition is_close (e : event) : bool :=
  match e with BodyClose => true | _ => false end.
Definition closes (t : list event) : nat := length (List.filter is_close t).

(** The responses an engine gave to a list of requests. *)
Definition responses (escli : es.Client) (reqs : list es.SearchRequest)
  : list es.Response :=
  omap (fun req => match es.Perform escli req with
                   | inr res => Some res
                   | inl _ => None
                   end) reqs.

(** An engine that answers every request with the same status and body. *)
Definition engine_answering_status (status : Z) (b : body) : es.Client :=
  {| es.Perform := fun _ => inr {| es.StatusCode := status; es.RespBody := b |} |}.

(** Two engines that give the same error, or a body that is the same,
    to every request; the status of their answers may differ. *)
Definition same_bodies (escli escli' : es.Client) : Prop :=
  forall req,
    match es.Perform escli req, es.Perform escli' req with
    | inl e, inl e' => e = e'
    | inr r, inr r' => es.RespBody r = es.RespBody r'
    | _, _ => False
    end.

(** A request whose page, where it names one, is within 1000 hits at an
    offset within 1000. *)
Definition page_within_1000 (req : es.SearchRequest) : Prop :=
  exists m : gmap string value,
    es.Body req = Some (Encoded (VMap m))
    /\ (forall v, m !! "size" = Some v -> exists n, v = VInt n /\ 0 <= n <= 1000)
    /\ (forall v, m !! "from" = Some v -> exists n, v = VInt n /\ 0 <= n <= 1000).

(** The literal of an integer, as a JSON number. *)
Definition int_literal (n : Z) : jvalue :=
  JNumber (Decimal.Decimal (Z.to_int n) Decimal.Nil).


(* ===================================================================== *)
(** ** Package [main] of athome: the error handler ([service.go]) *)
(* ===================================================================== *)

Module athome.

(** The errors the HTTP layer hands to its error handler: echo's
    [*echo.HTTPError] with its code, an error that wraps another one, or
    any other error. *)
Inductive herror : Type :=
| HTTPError (Code : Z) (Message : string)
| Wrapping (msg : string) (cause : herror)
| PlainError (err : error).

(** [pongo2.Context], a named map type. *)
Definition PongoContext : Type := gmap string value.

Inductive hevent : Type :=
| Warn (msg : string) (err : herror)
    (** a line of [slog.Warn] *)
| ContextRender (code : Z) (name : string) (data : PongoContext).
    (** [c.Render(code, name, data)] *)

Definition StatusInternalServerError : Z := 500.

(** [err.( *echo.HTTPError)]: the assertion looks at the dynamic type of
    [err] itself, not at what it wraps. *)
Definition as_HTTPError (err : herror) : option Z :=
  match err with
  | HTTPError code _ => Some code
  | Wrapping _ _ | PlainError _ => None
  end.

(** The handler returns nothing: what [c.Render] returns is dropped. *)
Definition errorHandler (err : herror) : list hevent :=
  let code :=
    match as_HTTPError err with
    | Some he_Code => he_Code
    | None => StatusInternalServerError
    end in
  (if code >=? 500 then [Warn "athome-http-internal-error" err] else [])
  ++ let data : PongoContext := {[ "statusCode" := VInt code ]} in
     [ContextRender code "error.html" data].

(** The pages a run of the handler rendered, and whether it logged. *)
Definition rendered (t : list hevent) : list (Z * string * PongoContext) :=
  omap (fun e => match e with
                 | ContextRender code name data => Some (code, name, data)
                 | Warn _ _ => None
                 end) t.

Definition warned (t : list hevent) : list herror :=
  omap (fun e => match e with
                 | Warn _ err => Some err
                 | ContextRender _ _ _ => None
                 end) t.

End athome.


(* ===================================================================== *)
(** ** The bodies that fit the response structure *)
(* ===================================================================== *)

(** Said of the JSON text alone, without decoding anything: the value is
    of a kind the Go type takes.  [null] fits every type; a number fits
    an [int] when it is written without fraction and exponent and lies
    within the range of a Go int, and a [float64] when it lies within
    the range of binary64; an object fits a struct when each of its
    members that names a field fits the type of that field, members
    that name no field being free; an array fits the slice of hits when
    each of its elements fits a hit; any value fits a [RawMessage]. *)
Definition fits_int (v : jvalue) : bool :=
  match v with
  | JNull => true
  | JNumber (Decimal.Decimal i Decimal.Nil) =>
      (int_min <=? Z.of_int i) && (Z.of_int i <=? int_max)
  | _ => false
  end.

Definition fits_float64 (v : jvalue) : bool :=
  match v with
  | JNull => true
  | JNumber lit =>
      match float64_of_literal lit with Some _ => true | None => false end
  | _ => false
  end.

Definition fits_bool (v : jvalue) : bool :=
  match v with JNull | JBool _ => true | _ => false end.

Definition fits_string (v : jvalue) : bool :=
  match v with JNull | JString _ => true | _ => false end.

Definition fits_members {F : Type} (fields : list (string * F))
    (fits_field : F -> jvalue -> bool) (members : list (string * jvalue))
  : bool :=
  forallb (fun kv => match find_field fields (fst kv) with
                     | Some f => fits_field f (snd kv)
                     | None => true
                     end) members.

Definition fits_struct {F : Type} (fields : list (string * F))
    (fits_field : F -> jvalue -> bool) (v : jvalue) : bool :=
  match v with
  | JNull => true
  | JObject members => fits_members fields fits_field members
  | _ => false
  end.

Definition fits_hit_field (f : hit_field) (v : jvalue) : bool :=
  match f with
  | F_index | F_id => fits_string v
  | F_score => fits_float64 v
  | F_source => true
  end.

Definition fits_EsSearchHit : jvalue -> bool :=
  fits_struct hit_fields fits_hit_field.

Definition fits_total_field (f : total_field) (v : jvalue) : bool :=
  match f with
  | F_Value => fits_int v
  | F_Relation => fits_string v
  end.

Definition fits_EsSearchTotal : jvalue -> bool :=
  fits_struct total_fields fits_total_field.

Definition fits_hit_list (v : jvalue) : bool :=
  match v with
  | JNull => true
  | JArray elems => forallb fits_EsSearchHit elems
  | _ => false
  end.

Definition fits_hits_field (f : hits_field) (v : jvalue) : bool :=
  match f with
  | F_total => fits_EsSearchTotal v
  | F_max_score => fits_float64 v
  | F_hits_hits => fits_hit_list v
  end.

Definition fits_EsSearchHits : jvalue -> bool :=
  fits_struct hits_fields fits_hits_field.

Definition fits_response_field (f : response_field) (v : jvalue) : bool :=
  match f with
  | F_took => fits_int v
  | F_timed_out => fits_bool v
  | F_hits => fits_EsSearchHits v
  end.

Definition fits_EsSearchResponse : jvalue -> bool :=
  fits_struct response_fields fits_response_field.

(** Whether a decoder gave a value. *)
Definition succeeds {A : Type} (r : error + A) : bool :=
  match r with inr _ => true | inl _ => false end.

(** The errors the decoder has for a value of the wrong kind. *)
Definition is_type_error (e : error) : Prop :=
  exists jsonkind gotype, e = UnmarshalTypeError jsonkind gotype.


(* ===================================================================== *)
(** ** The validator *)
(* ===================================================================== *)

Lemma int_add_small (a b : Z) :
  int_min <= a + b <= int_max -> int_add a b = a + b.
Proof.
  unfold int_add, int_wrap, int_min, int_max. intros H.
  rewrite Z.mod_small; lia.
Qed.

Lemma checkParams_None (offset size : Z) :
  checkParams offset size = None <->
  0 <= offset <= 1000 /\ 0 <= size <= 1000.
Proof.
  unfold checkParams, fmt_Errorf. split.
  - destruct (_ || _) eqn:E; [discriminate|]. intros _.
    repeat (apply orb_false_iff in E as [E ?]). lia.
  - intros [Ho Hs].
    rewrite int_add_small by (unfold int_min, int_max; lia).
    replace (offset + size >? 5000) with false by lia.
    replace (size >? 1000) with false by lia.
    replace (offset >? 1000) with false by lia.
    replace (offset <? 0) with false by lia.
    replace (size <? 0) with false by lia.
    reflexivity.
Qed.

Lemma checkParams_error (offset size : Z) :
  checkParams offset size = None \/ checkParams offset size = Some disallowed.
Proof.
  unfold checkParams, fmt_Errorf, disallowed.
  destruct (_ || _); [right | left]; reflexivity.
Qed.

(** C1, as amended: for every pair of integers, [checkParams] succeeds
    exactly when offset+size ≤ 5000, size ≤ 1000, offset ≤ 1000,
    offset ≥ 0 and size ≥ 0, and returns an error for every other pair.
    The boundary pairs (0, 1000), (1000, 0) and (1000, 1000) succeed;
    offset 1001, size 1001, offset -1, size -1, (1000, 4001) and also
    (1000, 4000), whose size is above 1000, each fail. *)
Theorem checkParams_window :
  (forall offset size : Z,
      checkParams offset size = None <-> window_allowed offset size)
  /\ (forall offset size : Z,
      (window_allowed offset size /\ checkParams offset size = None)
      \/ (~ window_allowed offset size
          /\ checkParams offset size = Some disallowed))
  /\ checkParams 0 1000 = None
  /\ checkParams 1000 0 = None
  /\ checkParams 1000 1000 = None
  /\ checkParams 1000 4000 = Some disallowed
  /\ checkParams 1001 0 = Some disallowed
  /\ checkParams 0 1001 = Some disallowed
  /\ checkParams (-1) 0 = Some disallowed
  /\ checkParams 0 (-1) = Some disallowed
  /\ checkParams 1000 4001 = Some disallowed.
Proof.
  assert (Hiff : forall offset size : Z,
             checkParams offset size = None <-> window_allowed offset size).
  { intros offset size. rewrite checkParams_None. unfold window_allowed. lia. }
  split; [exact Hiff|]. split.
  - intros offset size.
    destruct (checkParams_error offset size) as [H | H].
    + left. split; [by apply Hiff | done].
    + right. split; [|done]. intros Hw. apply Hiff in Hw. congruence.
  - repeat split; reflexivity.
Qed.

(** C1, as the specification states it, fails at (offset, size) =
    (1000, 4000): the sum is 5000 but the size is above 1000, and the
    pair is rejected. *)
Lemma checkParams_1000_4000_rejected :
  checkParams 1000 4000 = Some disallowed /\ checkParams 1000 4000 <> None.
Proof. split; [reflexivity | discriminate]. Qed.

(* ===================================================================== *)
(** ** The dispatcher *)
(* ===================================================================== *)

(** What a call of [doSearch] on an encodable query comes to: the log
    line, the one request, and then either the end of the process, when
    the transport fails, or the decoded body or the decode error, after
    the body is closed. *)
Lemma doSearch_run (ctx : Context) (escli : es.Client) (index : string)
    (query : value) :
  encodable query = true ->
  doSearch ctx escli index query =
  let warn := LogWarn "sending query" [("index", VString index); ("query", query)] in
  let req := request_of ctx index query in
  match es.Perform escli req with
  | inl err =>
      ([warn; EngineSearch req; LogFatal "Error getting response: %s" err],
       Exits 1)
  | inr res =>
      ([warn; EngineSearch req; BodyClose],
       Returns
         match json_Decode (es.RespBody res) zero_EsSearchResponse with
         | inl err => (None, Some (WrapError "decoding search response: " err))
         | inr out => (Some out, None)
         end)
  end.
Proof.
  intros Henc. unfold doSearch, json_Encode. rewrite Henc.
  cbn -[json_Decode].
  change (es.WithTrackTotalHits (VBool false) _)
    with (request_of ctx index query).
  destruct (es.Perform escli (request_of ctx index query)) as [err | res].
  - reflexivity.
  - cbn -[json_Decode].
    destruct (json_Decode (es.RespBody res) zero_EsSearchResponse); reflexivity.
Qed.

(** A query that cannot be encoded ends the process before any request. *)
Lemma doSearch_unencodable (ctx : Context) (escli : es.Client)
    (index : string) (query : value) :
  encodable query = false ->
  doSearch ctx escli index query =
  ([LogFatal "Error encoding query: %s" (UnsupportedError "json: unsupported value")],
   Exits 1).
Proof.
  intros Henc. unfold doSearch, json_Encode. rewrite Henc. reflexivity.
Qed.

Lemma doSearch_dispatched (ctx : Context) (escli : es.Client)
    (index : string) (query : value) :
  encodable query = true ->
  dispatched (doSearch ctx escli index query).1 = [request_of ctx index query].
Proof.
  intros Henc. rewrite doSearch_run by done. cbn zeta.
  destruct (es.Perform escli _); reflexivity.
Qed.

Lemma doSearch_untracked (ctx : Context) (escli : es.Client)
    (index : string) (query : value) :
  Forall untracked (doSearch ctx escli index query).1.
Proof.
  destruct (encodable query) eqn:Henc.
  - rewrite doSearch_run by done. cbn zeta.
    destruct (es.Perform escli _); cbn; repeat constructor.
  - rewrite doSearch_unencodable by done. cbn. repeat constructor.
Qed.

(** Every public operation either returns the validator's error at once,
    with no effect at all, or is [doSearch] on a query that encodes. *)
Lemma invoke_cases (ctx : Context) (escli : es.Client) (index : string)
    (op : operation) :
  invoke ctx escli index op = ([], Returns (None, Some disallowed))
  \/ exists query : value,
      encodable query = true
      /\ invoke ctx escli index op = doSearch ctx escli index query.
Proof.
  destruct op as [q offset size | q offset size | q | q]; cbn [invoke].
  - unfold DoSearchPosts.
    destruct (checkParams_error offset size) as [-> | ->];
      [right | left; reflexivity].
    eexists. split; [|reflexivity]. vm_compute. reflexivity.
  - unfold DoSearchProfiles.
    destruct (checkParams_error offset size) as [-> | ->];
      [right | left; reflexivity].
    eexists. split; [|reflexivity]. vm_compute. reflexivity.
  - right. unfold DoSearchProfilesTypeahead.
    eexists. split; [|reflexivity]. vm_compute. reflexivity.
  - right. unfold DoSearchGeneric.
    eexists. split; [|reflexivity]. vm_compute. reflexivity.
Qed.

(* ===================================================================== *)
(** ** The four query shapes *)
(* ===================================================================== *)

(** C3: for every query text and every window the validator accepts,
    [DoSearchPosts] hands [doSearch], and through it the engine, a query
    with exactly the keys sort, query, size and from: the sort is on
    created_at with order "desc" and on nothing else (no _score), the
    query is a match on everything whose query value is the caller's
    text, size is the caller's size and from the caller's offset. *)
Theorem DoSearchPosts_query (ctx : Context) (escli : es.Client)
    (index q : string) (offset size : Z) :
  checkParams offset size = None ->
  exists query : gmap string value,
    DoSearchPosts ctx escli index q offset size
    = doSearch ctx escli index (VMap query)
    /\ dispatched (DoSearchPosts ctx escli index q offset size).1
       = [request_of ctx index (VMap query)]
    /\ dom query = {[ "sort"; "query"; "size"; "from" ]}
    /\ query !! "sort"
       = Some (VMap {[ "created_at" := VMap {[ "order" := VString "desc" ]} ]})
    /\ value_at ["sort"; "created_at"; "order"] (VMap query)
       = Some (VString "desc")
    /\ value_at ["sort"; "_score"] (VMap query) = None
    /\ query !! "query"
       = Some (VMap {[ "match" :=
                 VMap {[ "everything" := VMap {[ "query" := VString q ]} ]} ]})
    /\ value_at ["query"; "match"; "everything"; "query"] (VMap query)
       = Some (VString q)
    /\ query !! "size" = Some (VInt size)
    /\ query !! "from" = Some (VInt offset).
Proof.
  intros Hok. unfold DoSearchPosts. rewrite Hok.
  eexists. split; [reflexivity|].
  split; [apply doSearch_dispatched; vm_compute; reflexivity|].
  split; [vm_compute; reflexivity|].
  repeat split; reflexivity.
Qed.

(** The specification's scenario: "cat" on index "posts", offset 0 and
    size 20. *)
Lemma DoSearchPosts_query_cat :
  checkParams 0 20 = None
  /\ exists query : gmap string value,
      DoSearchPosts (ContextOf 0) engine_down "posts" "cat" 0 20
      = doSearch (ContextOf 0) engine_down "posts" (VMap query)
      /\ value_at ["query"; "match"; "everything"; "query"] (VMap query)
         = Some (VString "cat")
      /\ value_at ["sort"; "created_at"; "order"] (VMap query)
         = Some (VString "desc")
      /\ query !! "size" = Some (VInt 20)
      /\ query !! "from" = Some (VInt 0).
Proof.
  split; [reflexivity|].
  destruct (DoSearchPosts_query (ContextOf 0) engine_down "posts" "cat" 0 20
              eq_refl)
    as (query & Hrun & _ & _ & _ & Hsort & _ & _ & Hq & Hsize & Hfrom).
  exists query. repeat split; assumption.
Defined.

(** C5: for every query text and every window the validator accepts,
    [DoSearchProfiles] hands [doSearch] a query whose [bool] clause has
    exactly the keys must, should and boost: must is a match on
    everything with the caller's text, should is the list of the two term
    clauses has_avatar:true and has_banner:true, and boost is 1.0. *)
Theorem DoSearchProfiles_query (ctx : Context) (escli : es.Client)
    (index q : string) (offset size : Z) :
  checkParams offset size = None ->
  exists (query clause : gmap string value),
    DoSearchProfiles ctx escli index q offset size
    = doSearch ctx escli index (VMap query)
    /\ dispatched (DoSearchProfiles ctx escli index q offset size).1
       = [request_of ctx index (VMap query)]
    /\ dom query = {[ "query"; "size"; "from" ]}
    /\ query !! "query" = Some (VMap {[ "bool" := VMap clause ]})
    /\ dom clause = {[ "must"; "should"; "boost" ]}
    /\ clause !! "must"
       = Some (VMap {[ "match" :=
                 VMap {[ "everything" := VMap {[ "query" := VString q ]} ]} ]})
    /\ clause !! "should"
       = Some (VSlice
                 [VMap {[ "term" := VMap {[ "has_avatar" := VBool true ]} ]};
                  VMap {[ "term" := VMap {[ "has_banner" := VBool true ]} ]}])
    /\ clause !! "boost" = Some (VFloat float64_one)
    /\ query !! "size" = Some (VInt size)
    /\ query !! "from" = Some (VInt offset).
Proof.
  intros Hok. unfold DoSearchProfiles. rewrite Hok.
  eexists. eexists. split; [reflexivity|].
  split; [apply doSearch_dispatched; vm_compute; reflexivity|].
  split; [vm_compute; reflexivity|].
  split; [reflexivity|].
  split; [vm_compute; reflexivity|].
  repeat split; reflexivity.
Qed.

Lemma DoSearchProfiles_query_alice :
  checkParams 1000 1000 = None
  /\ exists query : gmap string value,
      DoSearchProfiles (ContextOf 0) engine_down "profiles" "alice" 1000 1000
      = doSearch (ContextOf 0) engine_down "profiles" (VMap query)
      /\ value_at ["query"; "bool"; "must"; "match"; "everything"; "query"]
           (VMap query) = Some (VString "alice")
      /\ value_at ["query"; "bool"; "boost"] (VMap query)
         = Some (VFloat float64_one).
Proof.
  split; [reflexivity|].
  destruct (DoSearchProfiles_query (ContextOf 0) engine_down "profiles" "alice"
              1000 1000 eq_refl)
    as (query & clause & Hrun & _ & _ & Hq & _ & Hmust & _ & Hboost & _ & _).
  exists query. split; [exact Hrun|].
  cbn [value_at]. rewrite Hq. rewrite lookup_singleton_eq.
  rewrite Hmust, Hboost. split; reflexivity.
Defined.

(** C4: for every query text, [DoSearchProfilesTypeahead] validates
    nothing and takes no pagination from its caller: it always hands
    [doSearch], and through it the engine, a query with exactly the keys
    query and size (so no from), where size is 30 and query is a
    multi_match of type bool_prefix on the caller's text over exactly the
    fields typeahead, typeahead._2gram and typeahead._3gram. *)
Theorem DoSearchProfilesTypeahead_query (ctx : Context) (escli : es.Client)
    (index q : string) :
  exists query : gmap string value,
    DoSearchProfilesTypeahead ctx escli index q
    = doSearch ctx escli index (VMap query)
    /\ dispatched (DoSearchProfilesTypeahead ctx escli index q).1
       = [request_of ctx index (VMap query)]
    /\ dom query = {[ "query"; "size" ]}
    /\ query !! "size" = Some (VInt 30)
    /\ query !! "from" = None
    /\ query !! "query"
       = Some (VMap {[ "multi_match" := VMap {[
                 "query" := VString q;
                 "type" := VString "bool_prefix";
                 "fields" := VStrings
                   ["typeahead"; "typeahead._2gram"; "typeahead._3gram"] ]} ]}).
Proof.
  unfold DoSearchProfilesTypeahead.
  eexists. split; [reflexivity|].
  split; [apply doSearch_dispatched; vm_compute; reflexivity|].
  split; [vm_compute; reflexivity|].
  repeat split; reflexivity.
Qed.

(** C6: for every query text, [DoSearchGeneric] hands [doSearch], and
    through it the engine, a query whose only key is query, holding a
    query_string clause with the caller's text unchanged and the settings
    default_operator "and", analyze_wildcard true, allow_leading_wildcard
    false, lenient true and default_field "everything", and no other. *)
Theorem DoSearchGeneric_query (ctx : Context) (escli : es.Client)
    (index q : string) :
  exists (query clause : gmap string value),
    DoSearchGeneric ctx escli index q = doSearch ctx escli index (VMap query)
    /\ dispatched (DoSearchGeneric ctx escli index q).1
       = [request_of ctx index (VMap query)]
    /\ query = {[ "query" := VMap {[ "query_string" := VMap clause ]} ]}
    /\ dom clause
       = {[ "query"; "default_operator"; "analyze_wildcard";
            "allow_leading_wildcard"; "lenient"; "default_field" ]}
    /\ clause !! "query" = Some (VString q)
    /\ clause !! "default_operator" = Some (VString "and")
    /\ clause !! "analyze_wildcard" = Some (VBool true)
    /\ clause !! "allow_leading_wildcard" = Some (VBool false)
    /\ clause !! "lenient" = Some (VBool true)
    /\ clause !! "default_field" = Some (VString "everything").
Proof.
  unfold DoSearchGeneric.
  eexists. eexists. split; [reflexivity|].
  split; [apply doSearch_dispatched; vm_compute; reflexivity|].
  split; [reflexivity|].
  split; [vm_compute; reflexivity|].
  repeat split; reflexivity.
Qed.

(* ===================================================================== *)
(** ** Validation comes first *)
(* ===================================================================== *)

(** C7: for every window the validator rejects, [DoSearchPosts] and
    [DoSearchProfiles] return at once: the response is nil, the error is
    the validator's, and the call has had no effect at all, so no query
    was logged or encoded and no request reached the engine. *)
Theorem rejected_window_returns_at_once (ctx : Context) (escli : es.Client)
    (index q : string) (offset size : Z) (err : error) :
  checkParams offset size = Some err ->
  DoSearchPosts ctx escli index q offset size = ([], Returns (None, Some err))
  /\ DoSearchProfiles ctx escli index q offset size
     = ([], Returns (None, Some err))
  /\ dispatched (DoSearchPosts ctx escli index q offset size).1 = []
  /\ dispatched (DoSearchProfiles ctx escli index q offset size).1 = [].
Proof.
  intros Hrej. unfold DoSearchPosts, DoSearchProfiles. rewrite Hrej.
  repeat split; reflexivity.
Qed.

Lemma rejected_window_returns_at_once_1001 :
  checkParams 1001 0 = Some disallowed
  /\ DoSearchPosts (ContextOf 0) engine_down "posts" "cat" 1001 0
     = ([], Returns (None, Some disallowed))
  /\ DoSearchProfiles (ContextOf 0) engine_down "posts" "cat" 1001 0
     = ([], Returns (None, Some disallowed)).
Proof.
  split; [reflexivity|].
  destruct (rejected_window_returns_at_once (ContextOf 0) engine_down
              "posts" "cat" 1001 0 disallowed eq_refl) as (Hposts & Hprofiles & _).
  split; assumption.
Defined.

(* ===================================================================== *)
(** ** Dispatch *)
(* ===================================================================== *)

(** C9: whatever the operation and its input, the call is either the
    validator's immediate return or a call of [doSearch], and every
    request it hands to the engine has the tracking of the total number
    of hits set to false. *)
Theorem every_dispatch_untracked (ctx : Context) (escli : es.Client)
    (index : string) (op : operation) :
  (invoke ctx escli index op = ([], Returns (None, Some disallowed))
   \/ exists query : value,
       invoke ctx escli index op = doSearch ctx escli index query)
  /\ Forall untracked (invoke ctx escli index op).1
  /\ Forall (fun req => es.TrackTotalHits req = Some (VBool false))
       (dispatched (invoke ctx escli index op).1).
Proof.
  destruct (invoke_cases ctx escli index op) as [H | (query & Henc & H)];
    rewrite H.
  - split; [by left|]. split; constructor.
  - split; [right; by exists query|].
    split; [apply doSearch_untracked|].
    rewrite doSearch_dispatched by done. by repeat constructor.
Qed.

(** When the transport fails, the operation does not return: the process
    ends with status 1. *)
Lemma invoke_transport_failure (ctx : Context) (escli : es.Client)
    (index : string) (op : operation) (req : es.SearchRequest) (err : error) :
  dispatched (invoke ctx escli index op).1 = [req] ->
  es.Perform escli req = inl err ->
  exists t,
    invoke ctx escli index op
    = (t ++ [LogFatal "Error getting response: %s" err], Exits 1).
Proof.
  intros Hd Hfail.
  destruct (invoke_cases ctx escli index op) as [H | (query & Henc & H)];
    rewrite H in *; [discriminate|].
  rewrite doSearch_dispatched in Hd by done. injection Hd as <-.
  rewrite doSearch_run by done. cbn zeta. rewrite Hfail.
  by eexists [_; _].
Qed.

(** C2, on the code: with an engine that cannot be reached, Search-Posts
    for "cat" on "posts" with offset 0 and size 20 does not return an
    error to its caller; it logs "Error getting response" and ends the
    process with status 1. *)
Theorem DoSearchPosts_engine_down_exits :
  DoSearchPosts (ContextOf 0) engine_down "posts" "cat" 0 20
  = ([LogWarn "sending query"
        [("index", VString "posts");
         ("query", VMap {[
            "sort" := VMap {[
              "created_at" := VMap {[ "order" := VString "desc" ]} ]};
            "query" := VMap {[
              "match" := VMap {[
                "everything" := VMap {[ "query" := VString "cat" ]} ]} ]};
            "size" := VInt 20;
            "from" := VInt 0 ]})];
      EngineSearch (request_of (ContextOf 0) "posts" (VMap {[
            "sort" := VMap {[
              "created_at" := VMap {[ "order" := VString "desc" ]} ]};
            "query" := VMap {[
              "match" := VMap {[
                "everything" := VMap {[ "query" := VString "cat" ]} ]} ]};
            "size" := VInt 20;
            "from" := VInt 0 ]}));
      LogFatal "Error getting response: %s" (TransportError "connection refused")],
     Exits 1).
Proof. vm_compute. reflexivity. Qed.

(** C8: for every operation, when the engine answers the request and the
    body of its answer fails to decode, the operation returns to its
    caller: the response is nil and the error is the decode failure
    wrapped as "decoding search response: ...".  The process does not
    end on this path, and the outcome differs from that of any call whose
    transport fails. *)
Theorem decode_failure_is_returned (ctx : Context) (escli : es.Client)
    (index : string) (op : operation) (req : es.SearchRequest)
    (res : es.Response) (err : error) :
  dispatched (invoke ctx escli index op).1 = [req] ->
  es.Perform escli req = inr res ->
  json_Decode (es.RespBody res) zero_EsSearchResponse = inl err ->
  (invoke ctx escli index op).2
  = Returns (None, Some (WrapError "decoding search response: " err))
  /\ (forall status, (invoke ctx escli index op).2 <> Exits status)
  /\ (forall (escli' : es.Client) (index' : string) (op' : operation)
             (req' : es.SearchRequest) (err' : error),
        dispatched (invoke ctx escli' index' op').1 = [req'] ->
        es.Perform escli' req' = inl err' ->
        (invoke ctx escli' index' op').2 <> (invoke ctx escli index op).2).
Proof.
  intros Hd Hres Hdec.
  assert (Hret : (invoke ctx escli index op).2
                 = Returns (None, Some (WrapError "decoding search response: " err))).
  { destruct (invoke_cases ctx escli index op) as [H | (query & Henc & H)];
      rewrite H in *; [discriminate|].
    rewrite doSearch_dispatched in Hd by done. injection Hd as <-.
    rewrite doSearch_run by done. cbn zeta. rewrite Hres. cbn [snd].
    by rewrite Hdec. }
  split; [exact Hret|]. rewrite Hret. split; [discriminate|].
  intros escli' index' op' req' err' Hd' Hfail.
  destruct (invoke_transport_failure _ _ _ _ _ _ Hd' Hfail) as [t ->].
  discriminate.
Qed.

Lemma decode_failure_is_returned_truncated :
  (invoke (ContextOf 0) (engine_answering (NotJSON UnexpectedEOF)) "posts"
     (SearchGeneric "cat")).2
  = Returns (None, Some (WrapError "decoding search response: " UnexpectedEOF)).
Proof.
  refine (proj1 (decode_failure_is_returned (ContextOf 0)
            (engine_answering (NotJSON UnexpectedEOF)) "posts"
            (SearchGeneric "cat") _
            {| es.StatusCode := 200; es.RespBody := NotJSON UnexpectedEOF |}
            UnexpectedEOF _ _ _)).
  - vm_compute. reflexivity.
  - reflexivity.
  - reflexivity.
Defined.

(* ===================================================================== *)
(** ** What the decoder accepts *)
(* ===================================================================== *)

Lemma decode_members_no_field {S F : Type} (fields : list (string * F))
    (store : F -> jvalue -> S -> error + S)
    (members : list (string * jvalue)) (cur : S) :
  no_field fields members ->
  decode_members fields store members cur = inr cur.
Proof.
  induction 1 as [| [key v] rest Hkey _ IH]; cbn; [reflexivity|].
  cbn in Hkey. by rewrite Hkey.
Qed.

(** Storing into one field leaves the other fields as they were. *)
Lemma store_response_others (f : response_field) (v : jvalue)
    (r r' : EsSearchResponse) :
  store_response f v r = inr r' ->
  (f <> F_took -> Took r' = Took r)
  /\ (f <> F_timed_out -> TimedOut r' = TimedOut r)
  /\ (f <> F_hits -> Hits r' = Hits r).
Proof.
  destruct f; cbn; unfold fmap_result.
  - destruct (decode_int v (Took r)); [discriminate|].
    intros [= <-]. by repeat split.
  - destruct (decode_bool v (TimedOut r)); [discriminate|].
    intros [= <-]. by repeat split.
  - destruct (decode_EsSearchHits v (Hits r)); [discriminate|].
    intros [= <-]. by repeat split.
Qed.

Lemma decode_members_absent (members : list (string * jvalue))
    (cur out : EsSearchResponse) :
  decode_members response_fields store_response members cur = inr out ->
  (field_absent F_took members -> Took out = Took cur)
  /\ (field_absent F_timed_out members -> TimedOut out = TimedOut cur)
  /\ (field_absent F_hits members -> Hits out = Hits cur).
Proof.
  revert cur. induction members as [| [key v] rest IH]; intros cur; cbn.
  - intros [= <-]. by repeat split.
  - destruct (find_field response_fields key) as [f |] eqn:Hkey.
    + destruct (store_response f v cur) as [e | cur'] eqn:Hstore; [discriminate|].
      intros Hrest.
      destruct (IH _ Hrest) as (Ht & Hb & Hh).
      destruct (store_response_others _ _ _ _ Hstore) as (Ht' & Hb' & Hh').
      repeat split; intros Habs; apply Forall_cons in Habs as [Hne Habs];
        cbn in Hne; rewrite Hkey in Hne.
      * rewrite Ht by done. apply Ht'. congruence.
      * rewrite Hb by done. apply Hb'. congruence.
      * rewrite Hh by done. apply Hh'. congruence.
    + intros Hrest. destruct (IH _ Hrest) as (Ht & Hb & Hh).
      repeat split; intros Habs; apply Forall_cons in Habs as [_ Habs]; auto.
Qed.

(** *** Decoding succeeds on what fits, and on nothing else *)

Lemma succeeds_fmap_result {A B : Type} (f : A -> B) (r : error + A) :
  succeeds (fmap_result f r) = succeeds r.
Proof. by destruct r. Qed.

Lemma fmap_result_error {A B : Type} (f : A -> B) (r : error + A) (e : error) :
  fmap_result f r = inl e -> r = inl e.
Proof. destruct r; cbn; congruence. Qed.

Lemma decode_int_succeeds (v : jvalue) (cur : Z) :
  succeeds (decode_int v cur) = fits_int v.
Proof.
  destruct v as [| | lit | | |]; try reflexivity.
  cbn. unfold int_of_literal.
  destruct lit as [i f | i f e]; [|reflexivity].
  destruct f; try reflexivity. by destruct (_ && _).
Qed.

Lemma decode_float64_succeeds (v : jvalue) (cur : float64) :
  succeeds (decode_float64 v cur) = fits_float64 v.
Proof.
  destruct v as [| | lit | | |]; try reflexivity.
  cbn. by destruct (float64_of_literal lit).
Qed.

Lemma decode_bool_succeeds (v : jvalue) (cur : bool) :
  succeeds (decode_bool v cur) = fits_bool v.
Proof. by destruct v. Qed.

Lemma decode_string_succeeds (v : jvalue) (cur : string) :
  succeeds (decode_string v cur) = fits_string v.
Proof. by destruct v. Qed.

Lemma decode_int_error (v : jvalue) (cur : Z) (e : error) :
  decode_int v cur = inl e -> is_type_error e.
Proof.
  destruct v as [| | lit | | |]; cbn; try discriminate;
    try (intros [= <-]; by eexists _, _).
  destruct (int_of_literal lit); [discriminate|].
  intros [= <-]. by eexists _, _.
Qed.

Lemma decode_float64_error (v : jvalue) (cur : float64) (e : error) :
  decode_float64 v cur = inl e -> is_type_error e.
Proof.
  destruct v as [| | lit | | |]; cbn; try discriminate;
    try (intros [= <-]; by eexists _, _).
  destruct (float64_of_literal lit); [discriminate|].
  intros [= <-]. by eexists _, _.
Qed.

Lemma decode_bool_error (v : jvalue) (cur : bool) (e : error) :
  decode_bool v cur = inl e -> is_type_error e.
Proof.
  destruct v; cbn; try discriminate; intros [= <-]; by eexists _, _.
Qed.

Lemma decode_string_error (v : jvalue) (cur : string) (e : error) :
  decode_string v cur = inl e -> is_type_error e.
Proof.
  destruct v; cbn; try discriminate; intros [= <-]; by eexists _, _.
Qed.

Section Composite.
Context {S F : Type} (gotype : string) (fields : list (string * F))
  (store : F -> jvalue -> S -> error + S)
  (fits_field : F -> jvalue -> bool).
Hypothesis store_succeeds :
  forall f v cur, succeeds (store f v cur) = fits_field f v.
Hypothesis store_error :
  forall f v cur e, store f v cur = inl e -> is_type_error e.

Lemma decode_members_succeeds (members : list (string * jvalue)) (cur : S) :
  succeeds (decode_members fields store members cur)
  = fits_members fields fits_field members.
Proof using store_succeeds.
  revert cur. induction members as [| [key v] rest IH]; intros cur; cbn;
    [reflexivity|].
  destruct (find_field fields key) as [f |]; [|apply IH].
  rewrite <- (store_succeeds f v cur).
  destruct (store f v cur) as [e | cur']; [reflexivity | apply IH].
Qed.

Lemma decode_members_error (members : list (string * jvalue)) (cur : S)
    (e : error) :
  decode_members fields store members cur = inl e -> is_type_error e.
Proof using store_error.
  revert cur. induction members as [| [key v] rest IH]; intros cur; cbn;
    [discriminate|].
  destruct (find_field fields key) as [f |]; [|apply IH].
  destruct (store f v cur) as [e' | cur'] eqn:Hstore; [|apply IH].
  intros [= <-]. by eapply store_error.
Qed.

Lemma decode_struct_succeeds (v : jvalue) (cur : S) :
  succeeds (decode_struct gotype fields store v cur)
  = fits_struct fields fits_field v.
Proof using store_succeeds.
  destruct v; try reflexivity. apply decode_members_succeeds.
Qed.

Lemma decode_struct_error (v : jvalue) (cur : S) (e : error) :
  decode_struct gotype fields store v cur = inl e -> is_type_error e.
Proof using store_error.
  destruct v; cbn; try discriminate;
    try (intros [= <-]; by eexists _, _).
  apply decode_members_error.
Qed.
End Composite.

Lemma decode_EsSearchHit_succeeds (v : jvalue) (cur : EsSearchHit) :
  succeeds (decode_EsSearchHit v cur) = fits_EsSearchHit v.
Proof.
  apply decode_struct_succeeds. intros [] x h; cbn;
    rewrite ?succeeds_fmap_result;
    auto using decode_string_succeeds, decode_float64_succeeds.
Qed.

Lemma decode_EsSearchHit_error (v : jvalue) (cur : EsSearchHit) (e : error) :
  decode_EsSearchHit v cur = inl e -> is_type_error e.
Proof.
  apply decode_struct_error. intros [] x h e' He; cbn in He;
    try discriminate; apply fmap_result_error in He;
    eauto using decode_string_error, decode_float64_error.
Qed.

Lemma decode_hit_list_succeeds (v : jvalue) (cur : list EsSearchHit) :
  succeeds (decode_slice "[]search.EsSearchHit" decode_EsSearchHit
              zero_EsSearchHit v cur)
  = fits_hit_list v.
Proof.
  destruct v as [| | | | elems |]; try reflexivity. cbn -[decode_EsSearchHit].
  induction elems as [| x rest IH]; cbn -[decode_EsSearchHit];
    [reflexivity|].
  rewrite <- (decode_EsSearchHit_succeeds x zero_EsSearchHit), <- IH.
  destruct (decode_EsSearchHit x zero_EsSearchHit); [reflexivity|].
  by destruct (decode_elems decode_EsSearchHit zero_EsSearchHit rest).
Qed.

Lemma decode_hit_list_error (v : jvalue) (cur : list EsSearchHit) (e : error) :
  decode_slice "[]search.EsSearchHit" decode_EsSearchHit zero_EsSearchHit v cur
  = inl e ->
  is_type_error e.
Proof.
  destruct v as [| | | | elems |]; cbn -[decode_EsSearchHit];
    try discriminate; try (intros [= <-]; by eexists _, _).
  induction elems as [| x rest IH]; cbn -[decode_EsSearchHit];
    [discriminate|].
  destruct (decode_EsSearchHit x zero_EsSearchHit) as [e' |] eqn:Hx.
  - intros [= <-]. by eapply decode_EsSearchHit_error.
  - destruct (decode_elems decode_EsSearchHit zero_EsSearchHit rest);
      [|discriminate].
    intros [= <-]. by apply IH.
Qed.

Lemma decode_EsSearchTotal_succeeds (v : jvalue) (cur : EsSearchTotal) :
  succeeds (decode_EsSearchTotal v cur) = fits_EsSearchTotal v.
Proof.
  apply decode_struct_succeeds. intros [] x t; cbn;
    rewrite succeeds_fmap_result;
    auto using decode_string_succeeds, decode_int_succeeds.
Qed.

Lemma decode_EsSearchTotal_error (v : jvalue) (cur : EsSearchTotal) (e : error) :
  decode_EsSearchTotal v cur = inl e -> is_type_error e.
Proof.
  apply decode_struct_error. intros [] x t e' He; cbn in He;
    apply fmap_result_error in He;
    eauto using decode_string_error, decode_int_error.
Qed.

Lemma decode_EsSearchHits_succeeds (v : jvalue) (cur : EsSearchHits) :
  succeeds (decode_EsSearchHits v cur) = fits_EsSearchHits v.
Proof.
  apply decode_struct_succeeds. intros [] x hs; cbn -[decode_EsSearchHit];
    rewrite succeeds_fmap_result;
    auto using decode_EsSearchTotal_succeeds, decode_float64_succeeds,
      decode_hit_list_succeeds.
Qed.

Lemma decode_EsSearchHits_error (v : jvalue) (cur : EsSearchHits) (e : error) :
  decode_EsSearchHits v cur = inl e -> is_type_error e.
Proof.
  apply decode_struct_error. intros [] x hs e' He;
    cbn -[decode_EsSearchHit] in He; apply fmap_result_error in He;
    eauto using decode_EsSearchTotal_error, decode_float64_error,
      decode_hit_list_error.
Qed.

Lemma json_Decode_succeeds (v : jvalue) (cur : EsSearchResponse) :
  succeeds (json_Decode (JSONText v) cur) = fits_EsSearchResponse v.
Proof.
  apply decode_struct_succeeds. intros [] x r; cbn -[decode_EsSearchHits];
    rewrite succeeds_fmap_result;
    auto using decode_int_succeeds, decode_bool_succeeds,
      decode_EsSearchHits_succeeds.
Qed.

Lemma json_Decode_error (v : jvalue) (cur : EsSearchResponse) (e : error) :
  json_Decode (JSONText v) cur = inl e -> is_type_error e.
Proof.
  apply decode_struct_error. intros [] x r e' He;
    cbn -[decode_EsSearchHits] in He; apply fmap_result_error in He;
    eauto using decode_int_error, decode_bool_error, decode_EsSearchHits_error.
Qed.




(* ===================================================================== *)
(** ** Further properties of the validator and of dispatch *)
(* ===================================================================== *)

(** The guard on the sum never decides: [checkParams] gives the answer
    of its four other guards alone, for all integers, and in an accepted
    window the sum has not wrapped around and is at most 2000. *)
Theorem checkParams_sum_guard_never_decides (offset size : Z) :
  checkParams offset size
  = (if (size >? 1000) || (offset >? 1000) || (offset <? 0) || (size <? 0)
     then Some disallowed else None)
  /\ (checkParams offset size = None ->
      int_add offset size = offset + size /\ 0 <= offset + size <= 2000).
Proof.
  split.
  - destruct (_ || _) eqn:E.
    + destruct (checkParams_error offset size) as [H | H]; [|exact H].
      apply checkParams_None in H.
      repeat (apply orb_true_iff in E as [E | E]); lia.
    + apply checkParams_None.
      repeat (apply orb_false_iff in E as [E ?]). lia.
  - intros H. apply checkParams_None in H.
    rewrite int_add_small by (unfold int_min, int_max; lia). lia.
Qed.

Lemma checkParams_sum_guard_never_decides_1000 :
  checkParams 1000 1000 = None
  /\ int_add 1000 1000 = 2000.
Proof.
  split; [reflexivity|].
  exact (proj1 (proj2 (checkParams_sum_guard_never_decides 1000 1000) eq_refl)).
Defined.

(** Every public operation either returns the validator's error at once,
    whatever the engine, or is [doSearch] on one query that encodes,
    whatever the engine. *)
Lemma invoke_cases_uniform (ctx : Context) (index : string) (op : operation) :
  (forall escli, invoke ctx escli index op = ([], Returns (None, Some disallowed)))
  \/ exists query : value,
      encodable query = true
      /\ forall escli, invoke ctx escli index op = doSearch ctx escli index query.
Proof.
  destruct op as [q offset size | q offset size | q | q]; cbn [invoke].
  - unfold DoSearchPosts.
    destruct (checkParams_error offset size) as [-> | ->];
      [right | left; reflexivity].
    eexists. split; [|reflexivity]. vm_compute. reflexivity.
  - unfold DoSearchProfiles.
    destruct (checkParams_error offset size) as [-> | ->];
      [right | left; reflexivity].
    eexists. split; [|reflexivity]. vm_compute. reflexivity.
  - right. unfold DoSearchProfilesTypeahead.
    eexists. split; [|reflexivity]. vm_compute. reflexivity.
  - right. unfold DoSearchGeneric.
    eexists. split; [|reflexivity]. vm_compute. reflexivity.
Qed.

(** A call hands the engine at most one request, whatever the engine
    answers (nothing is retried), and which request it is does not depend
    on the engine. *)
Theorem at_most_one_request (ctx : Context) (escli escli' : es.Client)
    (index : string) (op : operation) :
  (length (dispatched (invoke ctx escli index op).1) <= 1)%nat
  /\ dispatched (invoke ctx escli index op).1
     = dispatched (invoke ctx escli' index op).1.
Proof.
  destruct (invoke_cases_uniform ctx index op) as [H | (query & Henc & H)];
    rewrite !H.
  - split; [cbn; lia | reflexivity].
  - rewrite !doSearch_dispatched by done. split; [cbn; lia | reflexivity].
Qed.

(** A public operation ends the process exactly when the one request it
    sent met a transport failure, and then with status 1. *)
Theorem exits_exactly_on_transport_failure (ctx : Context) (escli : es.Client)
    (index : string) (op : operation) (status : Z) :
  (invoke ctx escli index op).2 = Exits status
  <-> status = 1
      /\ exists req err,
          dispatched (invoke ctx escli index op).1 = [req]
          /\ es.Perform escli req = inl err.
Proof.
  destruct (invoke_cases ctx escli index op) as [H | (query & Henc & H)];
    rewrite H.
  - split; [discriminate|]. intros (_ & req & err & Hd & _). discriminate.
  - rewrite doSearch_dispatched by done. rewrite doSearch_run by done.
    cbn zeta.
    destruct (es.Perform escli (request_of ctx index query)) as [err | res] eqn:HP;
      cbn [snd].
    + split.
      * intros [= <-]. split; [done|]. by exists (request_of ctx index query), err.
      * intros (-> & _). reflexivity.
    + split; [discriminate|].
      intros (_ & req & err & [= <-] & Hfail). congruence.
Qed.

(** The query of a public operation always encodes: the only fatal line
    such a call can write is the one for a failed request. *)
Theorem public_queries_always_encode (ctx : Context) (escli : es.Client)
    (index : string) (op : operation) :
  Forall (fun e => forall format err,
              e = LogFatal format err -> format = "Error getting response: %s")
    (invoke ctx escli index op).1.
Proof.
  destruct (invoke_cases ctx escli index op) as [H | (query & Henc & H)];
    rewrite H; [constructor|].
  rewrite doSearch_run by done. cbn zeta.
  destruct (es.Perform escli _); cbn [fst];
    repeat first [apply List.Forall_nil | apply List.Forall_cons];
    intros format err'; try discriminate.
  by intros [= <- _].
Qed.

(** Whenever a public operation returns, exactly one of the response and
    the error is nil. *)
Theorem returns_response_or_error (ctx : Context) (escli : es.Client)
    (index : string) (op : operation)
    (r : option EsSearchResponse) (e : option error) :
  (invoke ctx escli index op).2 = Returns (r, e) ->
  (is_Some r /\ e = None) \/ (r = None /\ is_Some e).
Proof.
  destruct (invoke_cases ctx escli index op) as [H | (query & Henc & H)];
    rewrite H.
  - intros [= <- <-]. right. by split.
  - rewrite doSearch_run by done. cbn zeta.
    destruct (es.Perform escli _) as [err | res]; cbn [snd]; [discriminate|].
    destruct (json_Decode _ _); intros [= <- <-]; [right | left]; by split.
Qed.

Lemma returns_response_or_error_empty_object :
  (invoke (ContextOf 0) (engine_answering (JSONText (JObject []))) "posts"
     (SearchGeneric "cat")).2 = Returns (Some zero_EsSearchResponse, None)
  /\ (is_Some (Some zero_EsSearchResponse) /\ (None : option error) = None
      \/ Some zero_EsSearchResponse = None /\ is_Some (None : option error)).
Proof.
  assert (Hrun : (invoke (ContextOf 0)
                    (engine_answering (JSONText (JObject []))) "posts"
                    (SearchGeneric "cat")).2
                 = Returns (Some zero_EsSearchResponse, None))
    by (vm_compute; reflexivity).
  split; [exact Hrun|].
  exact (returns_response_or_error _ _ _ _ _ _ Hrun).
Defined.

(** The body of every response received is closed exactly once, also
    when it fails to decode; without a response nothing is closed. *)
Theorem body_closed_once_per_response (ctx : Context) (escli : es.Client)
    (index : string) (op : operation) :
  closes (invoke ctx escli index op).1
  = length (responses escli (dispatched (invoke ctx escli index op).1)).
Proof.
  destruct (invoke_cases ctx escli index op) as [H | (query & Henc & H)];
    rewrite H; [reflexivity|].
  rewrite doSearch_dispatched by done. rewrite doSearch_run by done.
  cbn zeta. unfold responses. cbn [omap list_omap].
  destruct (es.Perform escli _); reflexivity.
Qed.

(** Before anything is sent, the query is logged, and the query logged
    is the query sent, to the index logged. *)
Theorem query_logged_is_query_sent (ctx : Context) (escli : es.Client)
    (index : string) (op : operation) :
  (invoke ctx escli index op).1 = []
  \/ exists (query : value) (rest : list event),
      (invoke ctx escli index op).1
      = LogWarn "sending query" [("index", VString index); ("query", query)]
          :: EngineSearch (request_of ctx index query) :: rest
      /\ dispatched rest = [].
Proof.
  destruct (invoke_cases ctx escli index op) as [H | (query & Henc & H)];
    rewrite H; [by left|]. right.
  rewrite doSearch_run by done. cbn zeta. exists query.
  destruct (es.Perform escli _); eexists; split; reflexivity.
Qed.

(** The status code of the engine's answer is never looked at: two
    engines whose answers differ in nothing but their status give the
    same call, effect for effect. *)
Theorem status_code_is_ignored (ctx : Context) (escli escli' : es.Client)
    (index : string) (op : operation) :
  same_bodies escli escli' ->
  invoke ctx escli index op = invoke ctx escli' index op.
Proof.
  intros Hsame.
  destruct (invoke_cases_uniform ctx index op) as [H | (query & Henc & H)];
    rewrite !H; [reflexivity|].
  rewrite !doSearch_run by done. cbn zeta.
  specialize (Hsame (request_of ctx index query)).
  destruct (es.Perform escli _) as [e | r], (es.Perform escli' _) as [e' | r'];
    try contradiction.
  - by subst.
  - by rewrite Hsame.
Qed.

Lemma status_code_is_ignored_200_503 :
  invoke (ContextOf 0) (engine_answering_status 200 (JSONText (JObject [])))
    "posts" (SearchPosts "cat" 0 20)
  = invoke (ContextOf 0) (engine_answering_status 503 (JSONText (JObject [])))
      "posts" (SearchPosts "cat" 0 20).
Proof.
  apply status_code_is_ignored. intros req. reflexivity.
Defined.

(** An error answer of the engine, a body of the shape
    {"error": ..., "status": ...} under any status code, is not reported
    as an error: the operation returns the response of zero values and a
    nil error. *)
Theorem engine_error_answer_returns_empty_response (ctx : Context)
    (index : string) (op : operation) (status : Z) (cause code : jvalue)
    (req : es.SearchRequest) :
  let escli :=
    engine_answering_status status
      (JSONText (JObject [("error", cause); ("status", code)])) in
  dispatched (invoke ctx escli index op).1 = [req] ->
  (invoke ctx escli index op).2 = Returns (Some zero_EsSearchResponse, None).
Proof.
  intros escli Hd.
  destruct (invoke_cases ctx escli index op) as [H | (query & Henc & H)];
    rewrite H in *; [discriminate|].
  rewrite doSearch_run by done. reflexivity.
Qed.

Lemma engine_error_answer_returns_empty_response_400 :
  (invoke (ContextOf 0)
     (engine_answering_status 400
        (JSONText (JObject [("error", JString "parsing_exception");
                            ("status", int_literal 400)])))
     "posts" (SearchGeneric "a AND")).2
  = Returns (Some zero_EsSearchResponse, None).
Proof.
  eapply (engine_error_answer_returns_empty_response (ContextOf 0) "posts"
            (SearchGeneric "a AND") 400 (JString "parsing_exception")
            (int_literal 400)).
  vm_compute. reflexivity.
Defined.

(** No request that reaches the engine asks for a page of more than 1000
    hits or at an offset beyond 1000: Search-Posts and Search-Profiles
    send the validated window, the typeahead sends size 30 and no from,
    the generic search names no page at all. *)
Theorem every_request_page_within_1000 (ctx : Context) (escli : es.Client)
    (index : string) (op : operation) :
  Forall page_within_1000 (dispatched (invoke ctx escli index op).1).
Proof.
  destruct op as [q offset size | q offset size | q | q]; cbn [invoke].
  - unfold DoSearchPosts.
    destruct (checkParams offset size) eqn:Hok; [constructor|].
    apply checkParams_None in Hok.
    rewrite doSearch_dispatched by (vm_compute; reflexivity).
    constructor; [|constructor]. eexists. split; [reflexivity|].
    split; intros v Hv; vm_compute in Hv; injection Hv as <-;
      eexists; (split; [reflexivity | lia]).
  - unfold DoSearchProfiles.
    destruct (checkParams offset size) eqn:Hok; [constructor|].
    apply checkParams_None in Hok.
    rewrite doSearch_dispatched by (vm_compute; reflexivity).
    constructor; [|constructor]. eexists. split; [reflexivity|].
    split; intros v Hv; vm_compute in Hv; injection Hv as <-;
      eexists; (split; [reflexivity | lia]).
  - unfold DoSearchProfilesTypeahead.
    rewrite doSearch_dispatched by (vm_compute; reflexivity).
    constructor; [|constructor]. eexists. split; [reflexivity|].
    split; intros v Hv; vm_compute in Hv; [|discriminate].
    injection Hv as <-. eexists. split; [reflexivity | lia].
  - unfold DoSearchGeneric.
    rewrite doSearch_dispatched by (vm_compute; reflexivity).
    constructor; [|constructor]. eexists. split; [reflexivity|].
    split; intros v Hv; vm_compute in Hv; discriminate.
Qed.

(* ===================================================================== *)
(** ** Further properties of the decoded response *)
(* ===================================================================== *)

Lemma decode_members_app {S F : Type} (fields : list (string * F))
    (store : F -> jvalue -> S -> error + S)
    (l1 l2 : list (string * jvalue)) (cur : S) :
  decode_members fields store (l1 ++ l2) cur
  = match decode_members fields store l1 cur with
    | inl err => inl err
    | inr cur' => decode_members fields store l2 cur'
    end.
Proof.
  revert cur. induction l1 as [| [key v] rest IH]; intros cur; cbn;
    [reflexivity|].
  destruct (find_field fields key) as [f |]; [|apply IH].
  destruct (store f v cur); [reflexivity | apply IH].
Qed.

Lemma decode_elems_Forall2 {A : Type} (elem : jvalue -> A -> error + A)
    (zero : A) (elems : list jvalue) (out : list A) :
  decode_elems elem zero elems = inr out
  <-> Forall2 (fun e a => elem e zero = inr a) elems out.
Proof.
  revert out. induction elems as [| e rest IH]; intros out; cbn.
  - split; [intros [= <-]; constructor | by inversion 1].
  - split.
    + destruct (elem e zero) as [err | a] eqn:He; [discriminate|].
      destruct (decode_elems elem zero rest) as [err | l] eqn:Hrest;
        [discriminate|].
      intros [= <-]. constructor; [exact He | by apply IH].
    + inversion 1 as [| ? a ? l He Hrest]; subst.
      rewrite He. apply IH in Hrest. by rewrite Hrest.
Qed.

(** The hits come back in the order of the engine's answer, one for each
    element and none dropped: an answer {"hits":{"hits":[...]}} is
    returned as a response exactly when every element decodes as a hit,
    and the hits of the response are then these, in the same order. *)
Theorem hits_keep_their_order (ctx : Context) (escli : es.Client)
    (index : string) (op : operation) (req : es.SearchRequest)
    (res : es.Response) (elems : list jvalue) (r : EsSearchResponse) :
  dispatched (invoke ctx escli index op).1 = [req] ->
  es.Perform escli req = inr res ->
  es.RespBody res
  = JSONText (JObject [("hits", JObject [("hits", JArray elems)])]) ->
  (invoke ctx escli index op).2 = Returns (Some r, None)
  <-> exists hits : list EsSearchHit,
      Forall2 (fun e h => decode_EsSearchHit e zero_EsSearchHit = inr h)
        elems hits
      /\ r = {| Took := 0; TimedOut := false;
                Hits := {| Total := zero_EsSearchTotal;
                           MaxScore := float64_zero;
                           Hits_Hits := hits |} |}.
Proof.
  intros Hd Hres Hbody.
  destruct (invoke_cases ctx escli index op) as [H | (query & Henc & H)];
    rewrite H in *; [discriminate|].
  rewrite doSearch_dispatched in Hd by done. injection Hd as <-.
  rewrite doSearch_run by done. cbn zeta. rewrite Hres. cbn [snd].
  rewrite Hbody. cbn -[decode_EsSearchHit].
  destruct (decode_elems decode_EsSearchHit zero_EsSearchHit elems)
    as [err | hits] eqn:Helems; cbn.
  - split; [discriminate|]. intros (hits & Hall & _).
    apply decode_elems_Forall2 in Hall. congruence.
  - apply decode_elems_Forall2 in Helems. split.
    + intros [= <-]. by exists hits.
    + intros (hits' & Hall & ->).
      apply decode_elems_Forall2 in Hall, Helems. congruence.
Qed.

(** Two hits with the scores 1.0 and 0.5 come back as two hits, in that
    order. *)
Lemma hits_keep_their_order_two_hits :
  exists h1 h2 : EsSearchHit,
    (invoke (ContextOf 0)
       (engine_answering
          (JSONText (JObject [("hits", JObject [("hits", JArray
             [JObject [("_id", JString "a");
                       ("_score", JNumber (Decimal.Decimal
                          (Decimal.Pos (Decimal.D1 Decimal.Nil))
                          (Decimal.D0 Decimal.Nil)))];
              JObject [("_id", JString "b");
                       ("_score", JNumber (Decimal.Decimal
                          (Decimal.Pos (Decimal.D0 Decimal.Nil))
                          (Decimal.D5 Decimal.Nil)))]])])])))
       "posts" (SearchPosts "cat" 0 20)).2
    = Returns (Some {| Took := 0; TimedOut := false;
                       Hits := {| Total := zero_EsSearchTotal;
                                  MaxScore := float64_zero;
                                  Hits_Hits := [h1; h2] |} |}, None)
    /\ ID h1 = "a" /\ Score h1 = float64_one /\ ID h2 = "b".
Proof.
  eexists. eexists. split.
  - eapply hits_keep_their_order.
    + vm_compute. reflexivity.
    + reflexivity.
    + reflexivity.
    + eexists. split; [|reflexivity].
      repeat constructor; vm_compute; reflexivity.
  - repeat split; reflexivity.
Defined.

(** The document of a hit is kept as it came, whatever JSON value it
    is: a [_source] member never fails to decode, and it leaves the
    other fields of the hit as they were. *)
Theorem source_is_kept_as_it_came (members : list (string * jvalue))
    (h : EsSearchHit) (v : jvalue) :
  decode_EsSearchHit (JObject members) zero_EsSearchHit = inr h ->
  decode_EsSearchHit (JObject (members ++ [("_source", v)])) zero_EsSearchHit
  = inr {| Index := Index h; ID := ID h; Score := Score h; Source := Some v |}.
Proof.
  cbn. intros Hh. rewrite decode_members_app, Hh. reflexivity.
Qed.

Lemma source_is_kept_as_it_came_array :
  decode_EsSearchHit
    (JObject [("_id", JString "a"); ("_source", JArray [JNull; JBool true])])
    zero_EsSearchHit
  = inr {| Index := ""; ID := "a"; Score := float64_zero;
           Source := Some (JArray [JNull; JBool true]) |}.
Proof.
  apply (source_is_kept_as_it_came [("_id", JString "a")]
           {| Index := ""; ID := "a"; Score := float64_zero; Source := None |}).
  reflexivity.
Defined.

(** When a key comes twice, the later member wins: after any members
    that decode, a last member took with an integer that fits a Go int
    sets [Took] to that integer and leaves the rest. *)
Theorem last_took_wins (members : list (string * jvalue))
    (r : EsSearchResponse) (n : Z) :
  json_Decode (JSONText (JObject members)) zero_EsSearchResponse = inr r ->
  int_min <= n <= int_max ->
  json_Decode (JSONText (JObject (members ++ [("took", int_literal n)])))
    zero_EsSearchResponse
  = inr {| Took := n; TimedOut := TimedOut r; Hits := Hits r |}.
Proof.
  cbn. intros Hr Hn. rewrite decode_members_app, Hr. cbn.
  rewrite DecimalZ.of_to.
  replace (int_min <=? n) with true by lia.
  replace (n <=? int_max) with true by lia.
  reflexivity.
Qed.

Lemma last_took_wins_3_then_7 :
  json_Decode
    (JSONText (JObject [("took", int_literal 3); ("took", int_literal 7)]))
    zero_EsSearchResponse
  = inr {| Took := 7; TimedOut := false; Hits := zero_EsSearchHits |}.
Proof.
  apply (last_took_wins [("took", int_literal 3)]
           {| Took := 3; TimedOut := false; Hits := zero_EsSearchHits |} 7).
  - reflexivity.
  - unfold int_min, int_max. lia.
Defined.

(** [took] takes exactly the integer literals that fit a Go int: a
    literal with a fraction or an exponent, or out of range, is a decode
    error. *)
Theorem took_takes_integer_literals (lit : Decimal.decimal)
    (r : EsSearchResponse) :
  json_Decode (JSONText (JObject [("took", JNumber lit)])) zero_EsSearchResponse
  = inr r
  <-> exists i : Decimal.signed_int,
      lit = Decimal.Decimal i Decimal.Nil
      /\ int_min <= Z.of_int i <= int_max
      /\ r = {| Took := Z.of_int i; TimedOut := false;
                Hits := zero_EsSearchHits |}.
Proof.
  cbn. unfold int_of_literal. split.
  - destruct lit as [i f | i f e]; [|discriminate].
    destruct f; try discriminate.
    destruct (_ && _) eqn:E; [|discriminate].
    intros [= <-]. exists i. apply andb_true_iff in E as [? ?].
    repeat split; lia.
  - intros (i & -> & Hrange & ->).
    replace (int_min <=? Z.of_int i) with true by lia.
    replace (Z.of_int i <=? int_max) with true by lia.
    reflexivity.
Qed.

(** A null member changes nothing: after members that decode, one more
    member whose value is null, under any key, gives the same response. *)
Theorem null_member_is_ignored (members : list (string * jvalue))
    (key : string) (r : EsSearchResponse) :
  json_Decode (JSONText (JObject members)) zero_EsSearchResponse = inr r ->
  json_Decode (JSONText (JObject (members ++ [(key, JNull)])))
    zero_EsSearchResponse
  = inr r.
Proof.
  cbn. intros Hr. rewrite decode_members_app, Hr. cbn.
  destruct (find_field response_fields key) as [[] |]; destruct r; reflexivity.
Qed.

Lemma null_member_is_ignored_hits :
  json_Decode (JSONText (JObject [("took", int_literal 3); ("hits", JNull)]))
    zero_EsSearchResponse
  = inr {| Took := 3; TimedOut := false; Hits := zero_EsSearchHits |}.
Proof.
  apply (null_member_is_ignored [("took", int_literal 3)] "hits").
  reflexivity.
Defined.

(** The keys of the answer are matched whatever the case of their
    letters: a key selects took, timed_out or hits exactly when its case
    folding is TOOK, TIMED_OUT or HITS. *)
Theorem keys_match_whatever_the_case (key : string) :
  find_field response_fields key
  = if String.eqb (foldName key) "TOOK" then Some F_took
    else if String.eqb (foldName key) "TIMED_OUT" then Some F_timed_out
    else if String.eqb (foldName key) "HITS" then Some F_hits
    else None.
Proof.
  unfold find_field, response_fields. cbn [List.find fst snd].
  destruct (String.eqb_spec "took" key) as [<- | _]; [reflexivity|].
  destruct (String.eqb_spec "timed_out" key) as [<- | _]; [reflexivity|].
  destruct (String.eqb_spec "hits" key) as [<- | _]; [reflexivity|].
  change (foldName "took") with "TOOK".
  change (foldName "timed_out") with "TIMED_OUT".
  change (foldName "hits") with "HITS".
  rewrite (String.eqb_sym "TOOK"), (String.eqb_sym "TIMED_OUT"),
    (String.eqb_sym "HITS").
  destruct (String.eqb (foldName key) "TOOK"); [reflexivity|].
  destruct (String.eqb (foldName key) "TIMED_OUT"); [reflexivity|].
  destruct (String.eqb (foldName key) "HITS"); reflexivity.
Qed.

(* ===================================================================== *)
(** ** The error handler of athome *)
(* ===================================================================== *)

(** The error handler renders the page error.html exactly once, with a
    status that is also the statusCode shown on the page: the code of
    the error when it is an echo HTTP error, 500 for any other error,
    one that wraps an HTTP error included.  It logs the error exactly
    when that status is 500 or above. *)
Theorem errorHandler_status_and_log (err : athome.herror) :
  exists code : Z,
    athome.rendered (athome.errorHandler err)
    = [(code, "error.html", {[ "statusCode" := VInt code ]})]
    /\ code = default 500 (athome.as_HTTPError err)
    /\ (forall msg cause, err = athome.Wrapping msg cause -> code = 500)
    /\ athome.warned (athome.errorHandler err)
       = (if bool_decide (500 <= code) then [err] else []).
Proof.
  unfold athome.errorHandler.
  destruct err as [code message | msg cause | e]; cbn [athome.as_HTTPError].
  - exists code. case_bool_decide as Hc.
    + replace (code >=? 500) with true by lia.
      split; [reflexivity|]. split; [reflexivity|].
      split; [discriminate | reflexivity].
    + replace (code >=? 500) with false by lia.
      split; [reflexivity|]. split; [reflexivity|].
      split; [discriminate | reflexivity].
  - exists 500.
    split; [reflexivity|]. split; [reflexivity|].
    split; [reflexivity | reflexivity].
  - exists 500.
    split; [reflexivity|]. split; [reflexivity|].
    split; [discriminate | reflexivity].
Qed.
